(** * The external-dns webhook protocol handler of external-dns-glesys

    A shallow embedding of [webhook/webhook.go]: the media-type negotiator,
    the header check and the four HTTP handlers, over a model of Go's
    [http.ResponseWriter], followed by the properties of the handlers. *)

From Stdlib Require Import ZArith Ascii String List Lia.
From stdpp Require Import base option gmap strings.

Open Scope string_scope.
Open Scope Z_scope.

(** ** Constants of [webhook.go] *)

Definition mediaTypeFormat : string := "application/external.dns.webhook+json;".
Definition contentTypeHeader : string := "Content-Type".
Definition contentTypePlaintext : string := "text/plain".
Definition acceptHeader : string := "Accept".
Definition varyHeader : string := "Vary".
Definition supportedMediaVersions : string := "1".
Definition healthPath : string := "/health".

(** Status codes of [net/http] used by the handlers. *)
Definition StatusOK : Z := 200.
Definition StatusNoContent : Z := 204.
Definition StatusNotModified : Z := 304.
Definition StatusBadRequest : Z := 400.
Definition StatusNotAcceptable : Z := 406.
Definition StatusUnsupportedMediaType : Z := 415.
Definition StatusInternalServerError : Z := 500.

(** ** Go values used by the code *)

(** A Go [error] value; [nil] is [None] of [option error]. *)
Inductive error : Type := errorString (msg : string).

Definition Error (e : error) : string := match e with errorString m => m end.

(** [fmt.Errorf] at a format without verbs is [errors.New]. *)
Definition errors_New (msg : string) : error := errorString msg.

(** [len] of a Go string, an [int]. *)
Definition len (s : string) : Z := Z.of_nat (String.length s).

(** [strings.Split s sep] for a one-byte separator (every call of the source
    passes a comma): the pieces between the occurrences of [sep], always at
    least one piece. *)
Fixpoint Split (s : string) (sep : ascii) : list string :=
  match s with
  | EmptyString => [EmptyString]
  | String c rest =>
      if Ascii.eqb c sep then EmptyString :: Split rest sep
      else match Split rest sep with
           | piece :: pieces => String c piece :: pieces
           | [] => [String c EmptyString]
           end
  end.

Definition comma : ascii := ","%char.

(** ** The media-type negotiator *)

Definition mediaType := string.

Definition mediaTypeVersion (v : string) : mediaType :=
  mediaTypeFormat +:+ "version=" +:+ v.

Definition mediaTypeVersion1 : mediaType := mediaTypeVersion "1".

(** [mediaType.Is] *)
Definition Is (m : mediaType) (headerValue : string) : bool :=
  String.eqb m headerValue.

(** The first loop of [checkAndGetMediaTypeHeaderValue]: the first version
    of the range whose media type is the value. *)
Fixpoint firstSupported (versions : list string) (value : string) : option string :=
  match versions with
  | [] => None
  | v :: rest => if Is (mediaTypeVersion v) value then Some v
                 else firstSupported rest value
  end.

(** The second loop: [i] is the index of the head of [versions] in the range,
    [acc] the string built so far.  The separator test compares the index
    with the length of the configuration string, as the source does. *)
Fixpoint supportedMediaTypes (i : Z) (versions : list string) (acc : string) : string :=
  match versions with
  | [] => acc
  | v :: rest =>
      let sep := if i <? len supportedMediaVersions - 1 then ", " else "" in
      supportedMediaTypes (i + 1) rest (acc +:+ mediaTypeVersion v +:+ sep)
  end.

Definition unsupportedMediaTypeError (value supported : string) : error :=
  errorString ("unsupported media type version: '" +:+ value +:+
               "'. Supported media types are: '" +:+ supported +:+ "'").

Definition checkAndGetMediaTypeHeaderValue (value : string) : string * option error :=
  match firstSupported (Split supportedMediaVersions comma) value with
  | Some v => (v, None)
  | None =>
      let supportedMediaTypesString :=
        supportedMediaTypes 0 (Split supportedMediaVersions comma) "" in
      ("", Some (unsupportedMediaTypeError value supportedMediaTypesString))
  end.

(** ** HTTP messages *)

(** [http.Header]: a map from canonical header names to their values.  The
    handlers only use names that are canonical already, so
    [textproto.CanonicalMIMEHeaderKey] is the identity on them. *)
Definition Header_Get (h : gmap string (list string)) (key : string) : string :=
  match h !! key with
  | Some (v :: _) => v
  | _ => ""
  end.

Definition Header_Set (h : gmap string (list string)) (key value : string)
  : gmap string (list string) :=
  <[key := [value]]> h.

Record Request : Type := mkRequest {
  Method : string;
  Path : string;                        (* r.URL.Path *)
  Header : gmap string (list string);   (* r.Header *)
  Body : string                         (* the bytes r.Body yields *)
}.

(** The server side of [http.ResponseWriter] ([net/http]'s [response], for a
    request whose method is not HEAD).  [handlerHeader] is the map that
    [w.Header()] returns and the handler mutates; [WriteHeader] commits the
    status and a copy of that map, after which changes of the map are not
    sent; the first [Write] commits status 200 when nothing was committed. *)
Record ResponseWriter : Type := mkResponseWriter {
  handlerHeader : gmap string (list string);
  wroteHeader : bool;
  status : Z;
  sentHeader : gmap string (list string);
  body : string
}.

Definition newResponseWriter : ResponseWriter :=
  {| handlerHeader := ∅; wroteHeader := false; status := 0;
     sentHeader := ∅; body := "" |}.

Definition rw_HeaderSet (key value : string) (w : ResponseWriter) : ResponseWriter :=
  {| handlerHeader := Header_Set (handlerHeader w) key value;
     wroteHeader := wroteHeader w; status := status w;
     sentHeader := sentHeader w; body := body w |}.

(** A second [WriteHeader] is superfluous: the server logs it and changes
    nothing. *)
Definition rw_WriteHeader (code : Z) (w : ResponseWriter) : ResponseWriter :=
  if wroteHeader w then w
  else {| handlerHeader := handlerHeader w; wroteHeader := true; status := code;
          sentHeader := handlerHeader w; body := body w |}.

Definition bodyAllowedForStatus (code : Z) : bool :=
  if (100 <=? code) && (code <=? 199) then false
  else if code =? StatusNoContent then false
  else if code =? StatusNotModified then false
  else true.

Definition ErrBodyNotAllowed : error :=
  errorString "http: request method or response status code does not allow body".

Definition rw_Write (data : string) (w : ResponseWriter)
  : (Z * option error) * ResponseWriter :=
  let w := if wroteHeader w then w else rw_WriteHeader StatusOK w in
  if len data =? 0 then ((0, None), w)
  else if negb (bodyAllowedForStatus (status w)) then ((0, Some ErrBodyNotAllowed), w)
  else ((len data, None),
        {| handlerHeader := handlerHeader w; wroteHeader := wroteHeader w;
           status := status w; sentHeader := sentHeader w;
           body := body w +:+ data |}).

(** What the client receives once the handler has returned: the server
    commits status 200 with the current header map when the handler never
    did. *)
Record Response : Type := mkResponse {
  StatusCode : Z;
  ResponseHeader : gmap string (list string);
  ResponseBody : string
}.

Definition finishRequest (w : ResponseWriter) : Response :=
  let w := if wroteHeader w then w else rw_WriteHeader StatusOK w in
  {| StatusCode := status w; ResponseHeader := sentHeader w; ResponseBody := body w |}.

(** ** Go slices and the JSON encoding of slices *)

(** A slice is [nil] or holds elements; [len] of both [nil] and the empty
    slice is 0. *)
Definition slice (A : Type) : Type := option (list A).

Definition slice_len {A : Type} (s : slice A) : Z :=
  match s with
  | None => 0
  | Some l => Z.of_nat (length l)
  end.

(** [log] levels of logrus. *)
Inductive Level : Type := DebugLevel | InfoLevel | ErrorLevel | FatalLevel.

(** [plan.Changes] of external-dns: four slices of endpoints. *)
Record Changes (Endpoint : Type) : Type := mkChanges {
  Create : slice (option Endpoint);
  UpdateOld : slice (option Endpoint);
  UpdateNew : slice (option Endpoint);
  Delete : slice (option Endpoint)
}.
Arguments mkChanges {Endpoint}.
Arguments Create {Endpoint}.
Arguments UpdateOld {Endpoint}.
Arguments UpdateNew {Endpoint}.
Arguments Delete {Endpoint}.

(** [encoding/json] on the types of external-dns, which are not part of this
    repository: how one endpoint and a domain filter are marshalled, and
    how the two request bodies are decoded.  [inr] is the error result. *)
Class Codec (Endpoint DomainFilter : Type) : Type := {
  marshalEndpoint : Endpoint -> string + error;
  marshalDomainFilter : DomainFilter -> string + error;
  decodeChanges : string -> Changes Endpoint + error;
  decodeEndpoints : string -> slice (option Endpoint) + error
}.

(** [provider.Provider] of external-dns, over the state [P] of the provider. *)
Class Provider (Endpoint DomainFilter P : Type) : Type := {
  Provider_Records : P -> (slice (option Endpoint) * option error) * P;
  Provider_ApplyChanges : Changes Endpoint -> P -> option error * P;
  Provider_AdjustEndpoints :
    slice (option Endpoint) -> P -> (slice (option Endpoint) * option error) * P;
  Provider_GetDomainFilter : P -> DomainFilter * P
}.

(** The calls a handler made to the provider, oldest first. *)
Inductive Call (Endpoint : Type) : Type :=
| CallRecords
| CallApplyChanges (changes : Changes Endpoint)
| CallAdjustEndpoints (endpoints : slice (option Endpoint))
| CallGetDomainFilter.
Arguments CallRecords {Endpoint}.
Arguments CallApplyChanges {Endpoint}.
Arguments CallAdjustEndpoints {Endpoint}.
Arguments CallGetDomainFilter {Endpoint}.

(** What a handler runs on: the response writer, the provider, the calls
    made to it and the log. *)
Record World (Endpoint P : Type) : Type := mkWorld {
  resp : ResponseWriter;
  prov : P;
  calls : list (Call Endpoint);
  logs : list (Level * string)
}.
Arguments mkWorld {Endpoint P}.
Arguments resp {Endpoint P}.
Arguments prov {Endpoint P}.
Arguments calls {Endpoint P}.
Arguments logs {Endpoint P}.

(** A handler step returns, or ends the process: logrus' [Fatalf] logs and
    calls [os.Exit]. *)
Inductive Outcome (W A : Type) : Type :=
| Return (a : A) (w : W)
| Exit (w : W).
Arguments Return {W A}.
Arguments Exit {W A}.

Section Handlers.
Context {Endpoint DomainFilter P : Type}.
Context {codec : Codec Endpoint DomainFilter} {provider : Provider Endpoint DomainFilter P}.

Definition M (A : Type) : Type := World Endpoint P -> Outcome (World Endpoint P) A.

#[export] Instance M_ret : MRet M := fun A a w => Return a w.
#[export] Instance M_bind : MBind M := fun A B f m w =>
  match m w with
  | Return a w' => f a w'
  | Exit w' => Exit w'
  end.

Definition onWriter {A : Type} (f : ResponseWriter -> A * ResponseWriter) : M A :=
  fun w => let '(a, rw) := f (resp w) in
           Return a (mkWorld rw (prov w) (calls w) (logs w)).

Definition w_Header_Set (key value : string) : M unit :=
  onWriter (fun rw => (tt, rw_HeaderSet key value rw)).
Definition w_WriteHeader (code : Z) : M unit :=
  onWriter (fun rw => (tt, rw_WriteHeader code rw)).
Definition w_Write (data : string) : M (Z * option error) :=
  onWriter (rw_Write data).
(** [fmt.Fprint(w, s)] for one string operand. *)
Definition Fprint (s : string) : M (Z * option error) := w_Write s.

(** A log call: the entry keeps the level and the format string, not the
    fields and operands. *)
Definition logAt (l : Level) (msg : string) : M unit :=
  fun w => Return tt (mkWorld (resp w) (prov w) (calls w) (logs w ++ [(l, msg)])).
Definition Fatalf {A : Type} (msg : string) : M A :=
  fun w => Exit (mkWorld (resp w) (prov w) (calls w) (logs w ++ [(FatalLevel, msg)])).

Definition onProvider {A : Type} (c : Call Endpoint) (f : P -> A * P) : M A :=
  fun w => let '(a, p) := f (prov w) in
           Return a (mkWorld (resp w) p (calls w ++ [c]) (logs w)).

(** *** [json.Marshal] of a [[]*endpoint.Endpoint]

    A nil slice is [null], a nil pointer is [null], the elements of a
    slice are separated by commas between brackets; the first element that
    fails to marshal fails the whole. *)
Definition marshalPointer (e : option Endpoint) : string + error :=
  match e with
  | None => inl "null"
  | Some x => marshalEndpoint x
  end.

Fixpoint marshalElements (first : bool) (es : list (option Endpoint)) : string + error :=
  match es with
  | [] => inl ""
  | e :: rest =>
      match marshalPointer e with
      | inr err => inr err
      | inl j =>
          match marshalElements false rest with
          | inr err => inr err
          | inl js => inl ((if first then "" else ",") +:+ j +:+ js)
          end
      end
  end.

Definition json_Marshal_Endpoints (pve : slice (option Endpoint)) : string * option error :=
  match pve with
  | None => ("null", None)
  | Some es =>
      match marshalElements true es with
      | inl js => ("[" +:+ js +:+ "]", None)
      | inr err => ("", Some err)
      end
  end.

Definition json_Marshal_DomainFilter (f : DomainFilter) : string * option error :=
  match marshalDomainFilter f with
  | inl b => (b, None)
  | inr err => ("", Some err)
  end.

Definition newline : string := String (ascii_of_nat 10) EmptyString.

(** [json.NewEncoder(w).Encode(v)]: the encoding of [v] and a newline in
    one [Write]; nothing is written when marshalling fails. *)
Definition json_Encode_Endpoints (records : slice (option Endpoint)) : M (option error) :=
  match json_Marshal_Endpoints records with
  | (_, Some err) => mret (Some err)
  | (b, None) => '(_, err) ← w_Write (b +:+ newline); mret err
  end.

(** *** [Health] *)
Definition Health (next : Request -> M unit) (r : Request) : M unit :=
  if String.eqb (Path r) healthPath then w_WriteHeader StatusOK
  else next r.

(** *** [headerCheck] *)
Definition headerCheck (isContentType : bool) (r : Request) : M (option error) :=
  let header := if isContentType then Header_Get (Header r) contentTypeHeader
                else Header_Get (Header r) acceptHeader in
  if len header =? 0 then
    w_Header_Set contentTypeHeader contentTypePlaintext;;
    w_WriteHeader StatusNotAcceptable;;
    let msg := "client must provide " in
    let msg := msg +:+ (if isContentType then "a content type" else "an accept header") in
    let err := errors_New msg in
    '(_, writeErr) ← Fprint (Error err);
    match writeErr with
    | Some _ => Fatalf "error writing error message to response writer"
    | None => mret (Some err)
    end
  else
    match checkAndGetMediaTypeHeaderValue header with
    | (_, Some err) =>
        w_Header_Set contentTypeHeader contentTypePlaintext;;
        w_WriteHeader StatusUnsupportedMediaType;;
        let msg := "client must provide a valid versioned media type in the " in
        let msg := msg +:+ (if isContentType then "content type" else "accept header") in
        let err := errorString (msg +:+ ": " +:+ Error err) in
        '(_, writeErr) ← Fprint (Error err);
        match writeErr with
        | Some _ => Fatalf "error writing error message to response writer"
        | None => mret (Some err)
        end
    | (_, None) => mret None
    end.

Definition contentTypeHeaderCheck (r : Request) : M (option error) :=
  headerCheck true r.

Definition acceptHeaderCheck (r : Request) : M (option error) :=
  headerCheck false r.

(** *** [Records] *)
Definition Records (r : Request) : M unit :=
  err ← acceptHeaderCheck r;
  match err with
  | Some _ => logAt ErrorLevel "accept header check failed"
  | None =>
      logAt DebugLevel "requesting records";;
      '(records, err) ← onProvider CallRecords Provider_Records;
      match err with
      | Some _ =>
          logAt ErrorLevel "error getting records";;
          w_WriteHeader StatusInternalServerError
      | None =>
          logAt DebugLevel "returning records count: %d";;
          w_Header_Set contentTypeHeader mediaTypeVersion1;;
          w_Header_Set varyHeader contentTypeHeader;;
          err ← json_Encode_Endpoints records;
          match err with
          | Some _ =>
              logAt ErrorLevel "error encoding records";;
              w_WriteHeader StatusInternalServerError
          | None => mret tt
          end
      end
  end.

(** *** [ApplyChanges] *)
Definition ApplyChanges (r : Request) : M unit :=
  err ← contentTypeHeaderCheck r;
  match err with
  | Some _ => logAt ErrorLevel "content type header check failed"
  | None =>
      match decodeChanges (Body r) with
      | inr err =>
          w_Header_Set contentTypeHeader contentTypePlaintext;;
          w_WriteHeader StatusBadRequest;;
          let errMsg := "error decoding changes: " +:+ Error err in
          '(_, writeError) ← Fprint errMsg;
          match writeError with
          | Some _ => Fatalf "error writing error message to response writer"
          | None => logAt InfoLevel errMsg
          end
      | inl changes =>
          logAt DebugLevel
            "requesting apply changes, create: %d , updateOld: %d, updateNew: %d, delete: %d";;
          err ← onProvider (CallApplyChanges changes) (Provider_ApplyChanges changes);
          match err with
          | Some _ =>
              w_Header_Set contentTypeHeader contentTypePlaintext;;
              w_WriteHeader StatusInternalServerError
          | None => w_WriteHeader StatusNoContent
          end
      end
  end.

(** *** [AdjustEndpoints] *)
Definition AdjustEndpoints (r : Request) : M unit :=
  err ← contentTypeHeaderCheck r;
  match err with
  | Some _ => logAt ErrorLevel "content type header check failed, request method: %s, request path: %s"
  | None =>
      err ← acceptHeaderCheck r;
      match err with
      | Some _ => logAt ErrorLevel "accept header check failed, request method: %s, request path: %s"
      | None =>
          match decodeEndpoints (Body r) with
          | inr err =>
              w_Header_Set contentTypeHeader contentTypePlaintext;;
              w_WriteHeader StatusBadRequest;;
              let errMessage := "failed to decode request body: " +:+ Error err in
              logAt InfoLevel (errMessage +:+ " , request method: %s, request path: %s");;
              '(_, writeError) ← Fprint errMessage;
              match writeError with
              | Some _ => Fatalf "error writing error message to response writer"
              | None => mret tt
              end
          | inl pve =>
              logAt DebugLevel "requesting adjust endpoints count: %d";;
              '(pve, err) ← onProvider (CallAdjustEndpoints pve) (Provider_AdjustEndpoints pve);
              match err with
              | Some _ =>
                  logAt ErrorLevel "Failed to call adjust endpoints: %v";;
                  w_Header_Set contentTypeHeader contentTypePlaintext;;
                  w_WriteHeader StatusInternalServerError
              | None => mret tt
              end;;
              let '(out, _) := json_Marshal_Endpoints pve in
              logAt DebugLevel "return adjust endpoints response, resultEndpointCount: %d";;
              w_Header_Set contentTypeHeader mediaTypeVersion1;;
              w_Header_Set varyHeader contentTypeHeader;;
              '(_, writeError) ← Fprint out;
              match writeError with
              | Some _ => Fatalf "error writing response"
              | None => mret tt
              end
          end
      end
  end.

(** *** [Negotiate] *)
Definition Negotiate (r : Request) : M unit :=
  err ← acceptHeaderCheck r;
  match err with
  | Some _ => logAt ErrorLevel "accept header check failed"
  | None =>
      filter ← onProvider CallGetDomainFilter Provider_GetDomainFilter;
      let '(b, err) := json_Marshal_DomainFilter filter in
      match err with
      | Some _ =>
          logAt ErrorLevel "failed to marshal domain filter, request method: %s, request path: %s";;
          w_WriteHeader StatusInternalServerError
      | None =>
          w_Header_Set contentTypeHeader mediaTypeVersion1;;
          '(_, writeError) ← w_Write b;
          match writeError with
          | Some _ =>
              logAt ErrorLevel "error writing response";;
              w_WriteHeader StatusInternalServerError
          | None => mret tt
          end
      end
  end.

(** *** Serving one request

    The four operations of the protocol; the routes are mounted by the
    server package. *)
Inductive Operation : Type :=
| OpRecords | OpApplyChanges | OpAdjustEndpoints | OpNegotiate.

Definition handler (op : Operation) : Request -> M unit :=
  match op with
  | OpRecords => Records
  | OpApplyChanges => ApplyChanges
  | OpAdjustEndpoints => AdjustEndpoints
  | OpNegotiate => Negotiate
  end.

Definition newWorld (p : P) : World Endpoint P :=
  mkWorld newResponseWriter p [] [].

(** The handler run on a fresh response writer: the response the client
    gets, the provider afterwards and the calls made to it; [None] when
    the process exited. *)
Definition serve (h : Request -> M unit) (r : Request) (p : P)
  : option (Response * P * list (Call Endpoint)) :=
  match h r (newWorld p) with
  | Return _ w => Some (finishRequest (resp w), prov w, calls w)
  | Exit _ => None
  end.

End Handlers.

(** ** A small instance: endpoints known by name, a stub provider

    The instance on which the general statements are run.  The codec knows
    one endpoint shape and a value that does not marshal (in Go, a type whose
    [MarshalJSON] fails); the provider answers from a table and never
    changes. *)
Module Sample.

Inductive Endpoint : Type :=
| Named (dnsName : string)
| Unencodable.

Inductive DomainFilter : Type :=
| Filters (include : list string)
| UnencodableFilter.

Definition quote : string := String (ascii_of_nat 34) EmptyString.

Definition quoted (s : string) : string := quote +:+ s +:+ quote.

Definition encodeEndpoint (e : Endpoint) : string + error :=
  match e with
  | Named n => inl ("{" +:+ quoted "dnsName" +:+ ":" +:+ quoted n +:+ "}")
  | Unencodable => inr (errorString "json: error calling MarshalJSON")
  end.

Definition encodeFilter (f : DomainFilter) : string + error :=
  match f with
  | Filters l => inl ("{" +:+ quoted "include" +:+ ":[" +:+
                      String.concat "," (map quoted l) +:+ "]}")
  | UnencodableFilter => inr (errorString "json: error calling MarshalJSON")
  end.

Definition twoEndpoints : slice (option Endpoint) :=
  Some [Some (Named "a.example.org"); Some (Named "b.example.org")].

Definition twoEndpointsJSON : string :=
  "[{" +:+ quoted "dnsName" +:+ ":" +:+ quoted "a.example.org" +:+ "},{" +:+
  quoted "dnsName" +:+ ":" +:+ quoted "b.example.org" +:+ "}]".

(** A decoder that knows a few bodies and rejects the rest. *)
Definition parseEndpoints (b : string) : slice (option Endpoint) + error :=
  if String.eqb b "null" then inl None
  else if String.eqb b "[]" then inl (Some [])
  else if String.eqb b twoEndpointsJSON then inl twoEndpoints
  else inr (errorString "unexpected end of JSON input").

Definition parseChanges (b : string) : Changes Endpoint + error :=
  if String.eqb b "{}" then inl (mkChanges None None None None)
  else inr (errorString "unexpected end of JSON input").

#[global] Instance codec : Codec Endpoint DomainFilter :=
  {| marshalEndpoint := encodeEndpoint;
     marshalDomainFilter := encodeFilter;
     decodeChanges := parseChanges;
     decodeEndpoints := parseEndpoints |}.

(** The stub provider: its answers are its state. *)
Record Stub : Type := mkStub {
  stubRecords : slice (option Endpoint) * option error;
  stubApplyChanges : option error;
  stubAdjustEndpoints : slice (option Endpoint) -> slice (option Endpoint) * option error;
  stubDomainFilter : DomainFilter
}.

#[global] Instance stubProvider : Provider Endpoint DomainFilter Stub :=
  {| Provider_Records := fun s => (stubRecords s, s);
     Provider_ApplyChanges := fun _ s => (stubApplyChanges s, s);
     Provider_AdjustEndpoints := fun pve s => (stubAdjustEndpoints s pve, s);
     Provider_GetDomainFilter := fun s => (stubDomainFilter s, s) |}.

Definition upstreamDown : error := errorString "glesys: service unavailable".

(** A provider that works and returns its input unchanged. *)
Definition healthy : Stub :=
  {| stubRecords := (Some [], None);
     stubApplyChanges := None;
     stubAdjustEndpoints := fun pve => (pve, None);
     stubDomainFilter := Filters ["example.org"] |}.

(** A provider all of whose fallible calls fail. *)
Definition failing : Stub :=
  {| stubRecords := (None, Some upstreamDown);
     stubApplyChanges := Some upstreamDown;
     stubAdjustEndpoints := fun pve => (pve, Some upstreamDown);
     stubDomainFilter := Filters [] |}.

(** A provider with no records that returns the nil slice. *)
Definition nilRecords : Stub :=
  {| stubRecords := (None, None);
     stubApplyChanges := None;
     stubAdjustEndpoints := fun pve => (pve, None);
     stubDomainFilter := Filters [] |}.


Definition request (headers : list (string * list string)) (b : string) : Request :=
  {| Method := "POST"; Path := "/"; Header := list_to_map headers; Body := b |}.

Definition versioned : list string := [mediaTypeVersion1].

(** A request without headers, and one whose accept header the negotiator
    rejects. *)
Definition bare : Request := request [] "".
Definition version2 : Request := request [(acceptHeader, [mediaTypeVersion "2"])] "".

(** Requests with valid headers. *)
Definition accepting : Request := request [(acceptHeader, versioned)] "".
Definition posting (b : string) : Request :=
  request [(contentTypeHeader, versioned); (acceptHeader, versioned)] b.

(** A request with a valid content type and no accept header. *)
Definition contentOnly (b : string) : Request :=
  request [(contentTypeHeader, versioned)] b.

(** A provider with two records. *)
Definition populated : Stub :=
  {| stubRecords := (twoEndpoints, None);
     stubApplyChanges := None;
     stubAdjustEndpoints := fun pve => (pve, None);
     stubDomainFilter := Filters ["example.org"] |}.

(** The health probe, and a request that differs from [accepting] in all
    that list-records does not read. *)
Definition probe : Request :=
  {| Method := "GET"; Path := healthPath; Header := ∅; Body := "" |}.

End Sample.

(** ** Vocabulary of the statements *)

(** The versions the negotiator ranges over. *)
Definition supportedVersions : list string := Split supportedMediaVersions comma.

(** The header a check reads. *)
Definition headerOf (isContentType : bool) (r : Request) : string :=
  if isContentType then Header_Get (Header r) contentTypeHeader
  else Header_Get (Header r) acceptHeader.

(** The header checks of each operation, in the order the handler makes
    them: [true] is the content type, [false] the accept header. *)
Definition requiredHeaders (op : Operation) : list bool :=
  match op with
  | OpRecords => [false]
  | OpApplyChanges => [true]
  | OpAdjustEndpoints => [true; false]
  | OpNegotiate => [false]
  end.

Inductive HeaderFailure : Type :=
| Missing
| Unsupported (err : error).

Definition headerFailure (value : string) : option HeaderFailure :=
  if len value =? 0 then Some Missing
  else match checkAndGetMediaTypeHeaderValue value with
       | (_, Some err) => Some (Unsupported err)
       | (_, None) => None
       end.

(** The first required header of the request that is missing or fails
    negotiation. *)
Fixpoint firstFailure (checks : list bool) (r : Request) : option (bool * HeaderFailure) :=
  match checks with
  | [] => None
  | isContentType :: rest =>
      match headerFailure (headerOf isContentType r) with
      | Some f => Some (isContentType, f)
      | None => firstFailure rest r
      end
  end.

Definition missingHeaderMessage (isContentType : bool) : string :=
  "client must provide " +:+
  (if isContentType then "a content type" else "an accept header").

Definition unsupportedHeaderMessage (isContentType : bool) (err : error) : string :=
  "client must provide a valid versioned media type in the " +:+
  (if isContentType then "content type" else "accept header") +:+ ": " +:+ Error err.

(** The header map of a plaintext error response. *)
Definition plaintextHeader : gmap string (list string) :=
  {[ contentTypeHeader := [contentTypePlaintext] ]}.

(** The header map of a response that carries the versioned media type;
    [vary] tells whether the variance header is there. *)
Definition mediaTypeHeader (v : string) (vary : bool) : gmap string (list string) :=
  if vary then <[ varyHeader := [contentTypeHeader] ]> {[ contentTypeHeader := [mediaTypeVersion v] ]}
  else {[ contentTypeHeader := [mediaTypeVersion v] ]}.

(** The status and the message of a failed check. *)
Definition failureStatus (f : HeaderFailure) : Z :=
  match f with
  | Missing => StatusNotAcceptable
  | Unsupported _ => StatusUnsupportedMediaType
  end.

Definition failureMessage (isContentType : bool) (f : HeaderFailure) : string :=
  match f with
  | Missing => missingHeaderMessage isContentType
  | Unsupported err => unsupportedHeaderMessage isContentType err
  end.

(** The response writer after a plaintext response was sent. *)
Definition plainResponse (code : Z) (msg : string) : ResponseWriter :=
  {| handlerHeader := plaintextHeader; wroteHeader := true; status := code;
     sentHeader := plaintextHeader; body := msg |}.


(** ** The negotiator over any configuration

    The body of [checkAndGetMediaTypeHeaderValue] with the constant
    [supportedMediaVersions] as the parameter [config]: what the function
    does when more versions are configured. *)
Fixpoint supportedMediaTypesOf (config : string) (i : Z) (versions : list string)
         (acc : string) : string :=
  match versions with
  | [] => acc
  | v :: rest =>
      let sep := if i <? len config - 1 then ", " else "" in
      supportedMediaTypesOf config (i + 1) rest (acc +:+ mediaTypeVersion v +:+ sep)
  end.

Definition checkAndGetMediaTypeHeaderValueOf (config value : string)
  : string * option error :=
  match firstSupported (Split config comma) value with
  | Some v => (v, None)
  | None =>
      let supportedMediaTypesString :=
        supportedMediaTypesOf config 0 (Split config comma) "" in
      ("", Some (unsupportedMediaTypeError value supportedMediaTypesString))
  end.

(** * Properties *)

(** ** The negotiator *)

Lemma append_inj_l (p a b : string) : p +:+ a = p +:+ b -> a = b.
Proof.
  induction p as [|c p IH]; cbn [String.append]; [auto|].
  intros H. injection H. auto.
Qed.

Lemma mediaTypeVersion_inj (a b : string) :
  mediaTypeVersion a = mediaTypeVersion b -> a = b.
Proof.
  unfold mediaTypeVersion. intros H.
  apply append_inj_l in H. apply append_inj_l in H. exact H.
Qed.

Lemma firstSupported_Some (vs : list string) (value v : string) :
  firstSupported vs value = Some v -> In v vs /\ value = mediaTypeVersion v.
Proof.
  induction vs as [|x vs IH]; cbn [firstSupported In]; [discriminate|].
  unfold Is. destruct (String.eqb_spec (mediaTypeVersion x) value) as [E|E].
  - intros [= Hx]. subst. split; [left; reflexivity | reflexivity].
  - intros H. destruct (IH H). split; [right; assumption | assumption].
Qed.

Lemma firstSupported_hit (vs : list string) (v : string) :
  In v vs -> firstSupported vs (mediaTypeVersion v) = Some v.
Proof.
  induction vs as [|x vs IH]; cbn [firstSupported In]; [tauto|].
  unfold Is.
  destruct (String.eqb_spec (mediaTypeVersion x) (mediaTypeVersion v)) as [E|E].
  - intros _. f_equal. now apply mediaTypeVersion_inj.
  - intros [->|H]; [congruence|auto].
Qed.

Lemma firstSupported_None (vs : list string) (value : string) :
  (forall v, In v vs -> value <> mediaTypeVersion v) ->
  firstSupported vs value = None.
Proof.
  induction vs as [|x vs IH]; cbn [firstSupported In]; [auto|]. intros H.
  unfold Is. destruct (String.eqb_spec (mediaTypeVersion x) value) as [E|E].
  - exfalso. apply (H x); auto.
  - apply IH. intros v Hv. apply H. auto.
Qed.




Lemma checkAndGet_accepted (value v : string) :
  checkAndGetMediaTypeHeaderValue value = (v, None) ->
  In v supportedVersions /\ value = mediaTypeVersion v.
Proof.
  unfold checkAndGetMediaTypeHeaderValue. fold supportedVersions.
  destruct (firstSupported supportedVersions value) as [v'|] eqn:E; [|discriminate].
  intros [= <-]. now apply firstSupported_Some.
Qed.

(** A header value that negotiates is the media type of version 1, the only
    supported one, and is not empty. *)
Lemma negotiated_is_version1 (value v : string) :
  checkAndGetMediaTypeHeaderValue value = (v, None) ->
  v = "1" /\ value = mediaTypeVersion1.
Proof.
  intros H. apply checkAndGet_accepted in H.
  destruct H as [[<-|[]] ->]. split; reflexivity.
Qed.


Lemma negotiated_nonempty (value v : string) :
  checkAndGetMediaTypeHeaderValue value = (v, None) -> (len value =? 0) = false.
Proof.
  intros H. apply negotiated_is_version1 in H. destruct H as [_ ->]. reflexivity.
Qed.

(** ** The handlers *)

Section Properties.
Context {Endpoint DomainFilter P : Type}.
Context {codec : Codec Endpoint DomainFilter} {provider : Provider Endpoint DomainFilter P}.

(** *** The three results of [headerCheck] *)

Lemma headerCheck_ok (isContentType : bool) (r : Request) (v : string) (w : World Endpoint P) :
  checkAndGetMediaTypeHeaderValue (headerOf isContentType r) = (v, None) ->
  headerCheck isContentType r w = Return None w.
Proof.
  intros H1. unfold headerCheck. fold (headerOf isContentType r).
  rewrite (negotiated_nonempty _ _ H1), H1. reflexivity.
Qed.

Lemma headerCheck_missing (isContentType : bool) (r : Request) (p : P) :
  (len (headerOf isContentType r) =? 0) = true ->
  headerCheck isContentType r (newWorld (Endpoint:=Endpoint) p) =
  Return (Some (errorString (missingHeaderMessage isContentType)))
         (mkWorld (plainResponse StatusNotAcceptable (missingHeaderMessage isContentType))
                  p [] []).
Proof.
  intros H1. unfold headerCheck. fold (headerOf isContentType r). rewrite H1.
  destruct isContentType; reflexivity.
Qed.

Lemma headerCheck_unsupported (isContentType : bool) (r : Request) (p : P)
      (v : string) (err : error) :
  (len (headerOf isContentType r) =? 0) = false ->
  checkAndGetMediaTypeHeaderValue (headerOf isContentType r) = (v, Some err) ->
  headerCheck isContentType r (newWorld (Endpoint:=Endpoint) p) =
  Return (Some (errorString (unsupportedHeaderMessage isContentType err)))
         (mkWorld (plainResponse StatusUnsupportedMediaType
                                 (unsupportedHeaderMessage isContentType err))
                  p [] []).
Proof.
  intros H0 H1. unfold headerCheck. fold (headerOf isContentType r).
  rewrite H0, H1. destruct isContentType; reflexivity.
Qed.

Lemma headerCheck_failure (isContentType : bool) (r : Request) (p : P) (f : HeaderFailure) :
  headerFailure (headerOf isContentType r) = Some f ->
  exists e, headerCheck isContentType r (newWorld (Endpoint:=Endpoint) p) =
  Return (Some e)
         (mkWorld (plainResponse (failureStatus f) (failureMessage isContentType f)) p [] []).
Proof.
  unfold headerFailure.
  destruct (len (headerOf isContentType r) =? 0) eqn:E0.
  - intros [= <-]. eexists. now apply headerCheck_missing.
  - destruct (checkAndGetMediaTypeHeaderValue (headerOf isContentType r)) as [v [err|]] eqn:E1;
      [|discriminate].
    intros [= <-]. eexists. now apply (headerCheck_unsupported _ _ _ v).
Qed.

Lemma headerCheck_pass (isContentType : bool) (r : Request) (w : World Endpoint P) :
  headerFailure (headerOf isContentType r) = None ->
  headerCheck isContentType r w = Return None w.
Proof.
  unfold headerFailure.
  destruct (len (headerOf isContentType r) =? 0) eqn:E0; [discriminate|].
  destruct (checkAndGetMediaTypeHeaderValue (headerOf isContentType r)) as [v [err|]] eqn:E1;
    [discriminate|].
  intros _. now apply (headerCheck_ok _ _ v).
Qed.

(** C2. For each of the four operations, when the first required header of
    the request that does not pass its check (the content type where the
    request has a body, the accept header where the response has one, the
    content type first where both are required) is absent or empty, the
    response is 406 Not Acceptable, and when it is there and fails
    negotiation the response is 415 Unsupported Media Type; the response
    has [Content-Type: text/plain] as its only header and the message that
    names the header (followed, for 415, by the negotiation error) as its
    body; the handler returns, the provider was not called and is
    unchanged. *)
Theorem failed_header_check_stops_handler (op : Operation) (r : Request) (p : P)
      (isContentType : bool) (f : HeaderFailure) :
  firstFailure (requiredHeaders op) r = Some (isContentType, f) ->
  serve (handler op) r p =
  Some ({| StatusCode :=
             match f with
             | Missing => StatusNotAcceptable
             | Unsupported _ => StatusUnsupportedMediaType
             end;
           ResponseHeader := {[ contentTypeHeader := [contentTypePlaintext] ]};
           ResponseBody :=
             match f with
             | Missing =>
                 "client must provide " +:+
                 (if isContentType then "a content type" else "an accept header")
             | Unsupported err =>
                 "client must provide a valid versioned media type in the " +:+
                 (if isContentType then "content type" else "accept header") +:+
                 ": " +:+ Error err
             end |}, p, []).
Proof.
  change (firstFailure (requiredHeaders op) r = Some (isContentType, f) ->
          serve (handler op) r p =
          Some ({| StatusCode := failureStatus f; ResponseHeader := plaintextHeader;
                   ResponseBody := failureMessage isContentType f |}, p, [])).
  destruct op; cbn [requiredHeaders firstFailure handler].
  - destruct (headerFailure (headerOf false r)) as [f'|] eqn:E; [|discriminate].
    intros [= <- <-]. destruct (headerCheck_failure _ _ p _ E) as [e He].
    unfold serve, Records, acceptHeaderCheck, mbind, M_bind. now rewrite He.
  - destruct (headerFailure (headerOf true r)) as [f'|] eqn:E; [|discriminate].
    intros [= <- <-]. destruct (headerCheck_failure _ _ p _ E) as [e He].
    unfold serve, ApplyChanges, contentTypeHeaderCheck, mbind, M_bind. now rewrite He.
  - destruct (headerFailure (headerOf true r)) as [f'|] eqn:E.
    + intros [= <- <-]. destruct (headerCheck_failure _ _ p _ E) as [e He].
      unfold serve, AdjustEndpoints, contentTypeHeaderCheck, mbind, M_bind. now rewrite He.
    + destruct (headerFailure (headerOf false r)) as [f'|] eqn:E'; [|discriminate].
      intros [= <- <-]. destruct (headerCheck_failure _ _ p _ E') as [e He].
      unfold serve, AdjustEndpoints, contentTypeHeaderCheck, acceptHeaderCheck, mbind, M_bind.
      rewrite (headerCheck_pass _ _ _ E). now rewrite He.
  - destruct (headerFailure (headerOf false r)) as [f'|] eqn:E; [|discriminate].
    intros [= <- <-]. destruct (headerCheck_failure _ _ p _ E) as [e He].
    unfold serve, Negotiate, acceptHeaderCheck, mbind, M_bind. now rewrite He.
Qed.

(** *** Runs of the handlers past the header checks *)


Lemma marshal_zero_records (records : slice (option Endpoint)) :
  slice_len records = 0 ->
  json_Marshal_Endpoints records =
  (match records with None => "null" | Some _ => "[]" end, None).
Proof.
  destruct records as [[|e es]|]; [reflexivity | discriminate | reflexivity].
Qed.

Lemma Records_run (r : Request) (p p' : P) (v : string)
      (records : slice (option Endpoint)) :
  checkAndGetMediaTypeHeaderValue (headerOf false r) = (v, None) ->
  Provider_Records p = ((records, None), p') ->
  serve Records r p =
  match json_Marshal_Endpoints records with
  | (b, None) => Some ({| StatusCode := StatusOK; ResponseHeader := mediaTypeHeader v true;
                          ResponseBody := b +:+ newline |}, p', [CallRecords])
  | (_, Some _) => Some ({| StatusCode := StatusInternalServerError;
                            ResponseHeader := mediaTypeHeader v true;
                            ResponseBody := "" |}, p', [CallRecords])
  end.
Proof.
  intros Hh Hp. destruct (negotiated_is_version1 _ _ Hh) as [-> _].
  unfold serve, Records, acceptHeaderCheck, mbind, M_bind.
  rewrite (headerCheck_ok _ _ _ _ Hh).
  unfold logAt, onProvider, newWorld. cbn [prov resp calls logs]. rewrite Hp.
  unfold json_Encode_Endpoints.
  destruct (json_Marshal_Endpoints records) as [b [e|]].
  - reflexivity.
  - destruct b; reflexivity.
Qed.

Lemma ApplyChanges_decode_error (r : Request) (p : P) (v : string) (err : error) :
  checkAndGetMediaTypeHeaderValue (headerOf true r) = (v, None) ->
  decodeChanges (Body r) = inr err ->
  serve ApplyChanges r p =
  Some ({| StatusCode := StatusBadRequest; ResponseHeader := plaintextHeader;
           ResponseBody := "error decoding changes: " +:+ Error err |}, p, []).
Proof.
  intros Hh Hd.
  unfold serve, ApplyChanges, contentTypeHeaderCheck, mbind, M_bind.
  rewrite (headerCheck_ok _ _ _ _ Hh), Hd. reflexivity.
Qed.

Lemma ApplyChanges_run (r : Request) (p p' : P) (v : string)
      (changes : Changes Endpoint) (res : option error) :
  checkAndGetMediaTypeHeaderValue (headerOf true r) = (v, None) ->
  decodeChanges (Body r) = inl changes ->
  Provider_ApplyChanges changes p = (res, p') ->
  serve ApplyChanges r p =
  Some (match res with
        | Some _ => {| StatusCode := StatusInternalServerError;
                       ResponseHeader := plaintextHeader; ResponseBody := "" |}
        | None => {| StatusCode := StatusNoContent;
                     ResponseHeader := ∅; ResponseBody := "" |}
        end, p', [CallApplyChanges changes]).
Proof.
  intros Hh Hd Hp.
  unfold serve, ApplyChanges, contentTypeHeaderCheck, mbind, M_bind.
  rewrite (headerCheck_ok _ _ _ _ Hh), Hd.
  unfold logAt, onProvider, newWorld. cbn [prov resp calls logs]. rewrite Hp.
  destruct res; reflexivity.
Qed.

Lemma AdjustEndpoints_decode_error (r : Request) (p : P) (v v' : string) (err : error) :
  checkAndGetMediaTypeHeaderValue (headerOf true r) = (v, None) ->
  checkAndGetMediaTypeHeaderValue (headerOf false r) = (v', None) ->
  decodeEndpoints (Body r) = inr err ->
  serve AdjustEndpoints r p =
  Some ({| StatusCode := StatusBadRequest; ResponseHeader := plaintextHeader;
           ResponseBody := "failed to decode request body: " +:+ Error err |}, p, []).
Proof.
  intros Hc Ha Hd.
  unfold serve, AdjustEndpoints, contentTypeHeaderCheck, acceptHeaderCheck, mbind, M_bind.
  rewrite (headerCheck_ok _ _ _ _ Hc), (headerCheck_ok _ _ _ _ Ha), Hd. reflexivity.
Qed.

(** The response writer [AdjustEndpoints] leaves behind once the provider
    was called: after an error of the provider the status and the plaintext
    header are committed before the body is written, and the header map of
    the handler is changed afterwards. *)
Lemma AdjustEndpoints_run (r : Request) (p p' : P) (v v' : string)
      (pve pve' : slice (option Endpoint)) (res : option error) :
  checkAndGetMediaTypeHeaderValue (headerOf true r) = (v, None) ->
  checkAndGetMediaTypeHeaderValue (headerOf false r) = (v', None) ->
  decodeEndpoints (Body r) = inl pve ->
  Provider_AdjustEndpoints pve p = ((pve', res), p') ->
  match AdjustEndpoints r (newWorld p) with
  | Exit _ => False
  | Return _ w =>
    prov w = p' /\ calls w = [CallAdjustEndpoints pve] /\
    resp w =
    {| handlerHeader := mediaTypeHeader v' true; wroteHeader := true;
       status := match res with
                 | Some _ => StatusInternalServerError
                 | None => StatusOK
                 end;
       sentHeader := match res with
                     | Some _ => plaintextHeader
                     | None => mediaTypeHeader v' true
                     end;
       body := fst (json_Marshal_Endpoints pve') |}
  end.
Proof.
  intros Hc Ha Hd Hp. destruct (negotiated_is_version1 _ _ Ha) as [-> _].
  unfold AdjustEndpoints, contentTypeHeaderCheck, acceptHeaderCheck, mbind, M_bind.
  rewrite (headerCheck_ok _ _ _ _ Hc), (headerCheck_ok _ _ _ _ Ha), Hd.
  unfold logAt, onProvider, newWorld. cbn [prov resp calls logs]. rewrite Hp.
  destruct (json_Marshal_Endpoints pve') as [out e].
  destruct res, out; vm_compute; repeat split.
Qed.

Lemma AdjustEndpoints_serve (r : Request) (p p' : P) (v v' : string)
      (pve pve' : slice (option Endpoint)) (res : option error) :
  checkAndGetMediaTypeHeaderValue (headerOf true r) = (v, None) ->
  checkAndGetMediaTypeHeaderValue (headerOf false r) = (v', None) ->
  decodeEndpoints (Body r) = inl pve ->
  Provider_AdjustEndpoints pve p = ((pve', res), p') ->
  serve AdjustEndpoints r p =
  Some ({| StatusCode := match res with
                         | Some _ => StatusInternalServerError
                         | None => StatusOK
                         end;
           ResponseHeader := match res with
                             | Some _ => plaintextHeader
                             | None => mediaTypeHeader v' true
                             end;
           ResponseBody := fst (json_Marshal_Endpoints pve') |},
        p', [CallAdjustEndpoints pve]).
Proof.
  intros Hc Ha Hd Hp.
  pose proof (AdjustEndpoints_run r p p' v v' pve pve' res Hc Ha Hd Hp) as Hrun.
  unfold serve. destruct (AdjustEndpoints r (newWorld p)) as [[] w|w]; [|contradiction].
  destruct Hrun as (Hprov & Hcalls & Hresp).
  rewrite Hprov, Hcalls, Hresp. reflexivity.
Qed.

Lemma Negotiate_run (r : Request) (p p' : P) (v : string) (f : DomainFilter) :
  checkAndGetMediaTypeHeaderValue (headerOf false r) = (v, None) ->
  Provider_GetDomainFilter p = (f, p') ->
  serve Negotiate r p =
  match marshalDomainFilter f with
  | inl b => Some ({| StatusCode := StatusOK; ResponseHeader := mediaTypeHeader v false;
                      ResponseBody := b |}, p', [CallGetDomainFilter])
  | inr _ => Some ({| StatusCode := StatusInternalServerError; ResponseHeader := ∅;
                      ResponseBody := "" |}, p', [CallGetDomainFilter])
  end.
Proof.
  intros Hh Hp. destruct (negotiated_is_version1 _ _ Hh) as [-> _].
  unfold serve, Negotiate, acceptHeaderCheck, mbind, M_bind.
  rewrite (headerCheck_ok _ _ _ _ Hh).
  unfold logAt, onProvider, newWorld. cbn [prov resp calls logs]. rewrite Hp.
  unfold json_Marshal_DomainFilter.
  destruct (marshalDomainFilter f) as [b|e].
  - destruct b; reflexivity.
  - reflexivity.
Qed.

(** *** The claims about the four operations *)

(** C3. For an apply-changes request whose content type passed the check
    (and whose body decoded, so that the provider is called): when
    [ApplyChanges] of the provider returns an error the response is 500
    Internal Server Error with [Content-Type: text/plain] and an empty
    body; when it succeeds the response is 204 No Content with no header
    and no body. *)
Theorem ApplyChanges_provider_outcome (r : Request) (p p' : P) (v : string)
      (changes : Changes Endpoint) (res : option error) :
  checkAndGetMediaTypeHeaderValue (headerOf true r) = (v, None) ->
  decodeChanges (Body r) = inl changes ->
  Provider_ApplyChanges changes p = (res, p') ->
  serve ApplyChanges r p =
  Some (match res with
        | Some _ => {| StatusCode := StatusInternalServerError;
                       ResponseHeader := {[ contentTypeHeader := [contentTypePlaintext] ]};
                       ResponseBody := "" |}
        | None => {| StatusCode := StatusNoContent;
                     ResponseHeader := ∅;
                     ResponseBody := "" |}
        end, p', [CallApplyChanges changes]).
Proof. exact (ApplyChanges_run r p p' v changes res). Qed.

(** C4. When the header checks passed and the request body does not decode,
    apply-changes and adjust-endpoints answer 400 Bad Request with
    [Content-Type: text/plain] and a message that ends in the decode error;
    the provider is not called and is unchanged. *)
Theorem decode_failure_is_bad_request (r : Request) (p : P) :
  (forall v err,
     checkAndGetMediaTypeHeaderValue (headerOf true r) = (v, None) ->
     decodeChanges (Body r) = inr err ->
     serve ApplyChanges r p =
     Some ({| StatusCode := StatusBadRequest;
              ResponseHeader := {[ contentTypeHeader := [contentTypePlaintext] ]};
              ResponseBody := "error decoding changes: " +:+ Error err |}, p, [])) /\
  (forall v v' err,
     checkAndGetMediaTypeHeaderValue (headerOf true r) = (v, None) ->
     checkAndGetMediaTypeHeaderValue (headerOf false r) = (v', None) ->
     decodeEndpoints (Body r) = inr err ->
     serve AdjustEndpoints r p =
     Some ({| StatusCode := StatusBadRequest;
              ResponseHeader := {[ contentTypeHeader := [contentTypePlaintext] ]};
              ResponseBody := "failed to decode request body: " +:+ Error err |}, p, [])).
Proof.
  split.
  - intros v err. exact (ApplyChanges_decode_error r p v err).
  - intros v v' err. exact (AdjustEndpoints_decode_error r p v v' err).
Qed.

(** C5. When adjust-endpoints reaches the provider and [AdjustEndpoints] of
    the provider returns an error together with a slice of endpoints, the
    response has status 500 Internal Server Error and its body is the JSON
    serialization of that slice. *)
Theorem AdjustEndpoints_error_keeps_body (r : Request) (p p' : P) (v v' : string)
      (pve pve' : slice (option Endpoint)) (err : error) (out : string) :
  checkAndGetMediaTypeHeaderValue (headerOf true r) = (v, None) ->
  checkAndGetMediaTypeHeaderValue (headerOf false r) = (v', None) ->
  decodeEndpoints (Body r) = inl pve ->
  Provider_AdjustEndpoints pve p = ((pve', Some err), p') ->
  json_Marshal_Endpoints pve' = (out, None) ->
  exists response,
    serve AdjustEndpoints r p = Some (response, p', [CallAdjustEndpoints pve]) /\
    StatusCode response = StatusInternalServerError /\
    ResponseBody response = out.
Proof.
  intros Hc Ha Hd Hp Hm.
  rewrite (AdjustEndpoints_serve r p p' v v' pve pve' _ Hc Ha Hd Hp), Hm.
  eexists. repeat split.
Qed.

(** C6, as amended. When [Records] of the provider returns no record and no
    error and the accept header is valid, list-records answers 200 with
    [Content-Type] the negotiated versioned media type and
    [Vary: Content-Type]; the body is what the JSON encoder writes for the
    slice, followed by a newline: the empty array for an empty slice, and
    [null] for the nil slice. *)
Theorem Records_no_records (r : Request) (p p' : P) (v : string)
      (records : slice (option Endpoint)) :
  checkAndGetMediaTypeHeaderValue (headerOf false r) = (v, None) ->
  Provider_Records p = ((records, None), p') ->
  slice_len records = 0 ->
  serve Records r p =
  Some ({| StatusCode := StatusOK;
           ResponseHeader :=
             <[ varyHeader := [contentTypeHeader] ]>
               {[ contentTypeHeader := [mediaTypeVersion v] ]};
           ResponseBody :=
             match records with
             | Some _ => "[]"
             | None => "null"
             end +:+ newline |}, p', [CallRecords]).
Proof.
  intros Hh Hp Hz.
  rewrite (Records_run r p p' v records Hh Hp), (marshal_zero_records _ Hz).
  reflexivity.
Qed.

(** C7. Round trip of adjust-endpoints: when both headers are valid, the
    request body deserializes to the endpoints [es], the provider returns
    [es] unchanged with no error, and the codec reads back what it writes
    for [es], the response is 200 and its body deserializes to [es], of the
    same length. *)
Theorem AdjustEndpoints_roundtrip (r : Request) (p p' : P) (v v' : string)
      (es : slice (option Endpoint)) (out : string) :
  checkAndGetMediaTypeHeaderValue (headerOf true r) = (v, None) ->
  checkAndGetMediaTypeHeaderValue (headerOf false r) = (v', None) ->
  decodeEndpoints (Body r) = inl es ->
  Provider_AdjustEndpoints es p = ((es, None), p') ->
  json_Marshal_Endpoints es = (out, None) ->
  decodeEndpoints out = inl es ->
  exists response es',
    serve AdjustEndpoints r p = Some (response, p', [CallAdjustEndpoints es]) /\
    StatusCode response = StatusOK /\
    decodeEndpoints (ResponseBody response) = inl es' /\
    es' = es /\ slice_len es' = slice_len es.
Proof.
  intros Hc Ha Hd Hp Hm Hrt.
  rewrite (AdjustEndpoints_serve r p p' v v' es es _ Hc Ha Hd Hp), Hm.
  eexists. exists es. cbn [StatusCode ResponseBody fst]. repeat split. exact Hrt.
Qed.

(** C8. For a negotiate request with a valid accept header, the body of the
    response is the JSON serialization of the value [GetDomainFilter] of the
    provider returns, byte for byte, the status is 200, [Content-Type] is
    the negotiated versioned media type and it is the only header: no
    [Vary] header is set. *)
Theorem Negotiate_serializes_domain_filter (r : Request) (p p' : P) (v : string)
      (f : DomainFilter) (b : string) :
  checkAndGetMediaTypeHeaderValue (headerOf false r) = (v, None) ->
  Provider_GetDomainFilter p = (f, p') ->
  marshalDomainFilter f = inl b ->
  exists response,
    serve Negotiate r p = Some (response, p', [CallGetDomainFilter]) /\
    StatusCode response = StatusOK /\
    ResponseBody response = b /\
    ResponseHeader response = {[ contentTypeHeader := [mediaTypeVersion v] ]} /\
    ResponseHeader response !! varyHeader = None.
Proof.
  intros Hh Hp Hm. rewrite (Negotiate_run r p p' v f Hh Hp), Hm.
  destruct (negotiated_is_version1 _ _ Hh) as [-> _].
  eexists. repeat split.
Qed.


(** C10. When [AdjustEndpoints] of the provider returns an error, the
    handler commits status 500 with [Content-Type: text/plain] before it
    writes the endpoints: the versioned media type and [Vary] are assigned
    to the header map of the handler afterwards and are not sent.  The
    client gets 500, [Content-Type: text/plain] as the only header, so no
    [Vary], and the JSON serialization of the endpoints as the body. *)
Theorem AdjustEndpoints_error_headers_committed (r : Request) (p p' : P) (v v' : string)
      (pve pve' : slice (option Endpoint)) (err : error) (out : string) :
  checkAndGetMediaTypeHeaderValue (headerOf true r) = (v, None) ->
  checkAndGetMediaTypeHeaderValue (headerOf false r) = (v', None) ->
  decodeEndpoints (Body r) = inl pve ->
  Provider_AdjustEndpoints pve p = ((pve', Some err), p') ->
  json_Marshal_Endpoints pve' = (out, None) ->
  exists w,
    AdjustEndpoints r (newWorld p) = Return tt w /\
    handlerHeader (resp w) !! contentTypeHeader = Some [mediaTypeVersion v'] /\
    handlerHeader (resp w) !! varyHeader = Some [contentTypeHeader] /\
    finishRequest (resp w) =
      {| StatusCode := StatusInternalServerError;
         ResponseHeader := {[ contentTypeHeader := [contentTypePlaintext] ]};
         ResponseBody := out |} /\
    ResponseHeader (finishRequest (resp w)) !! contentTypeHeader = Some [contentTypePlaintext] /\
    ResponseHeader (finishRequest (resp w)) !! varyHeader = None.
Proof.
  intros Hc Ha Hd Hp Hm.
  pose proof (AdjustEndpoints_run r p p' v v' pve pve' _ Hc Ha Hd Hp) as Hrun.
  destruct (AdjustEndpoints r (newWorld p)) as [[] w|w]; [|contradiction].
  destruct Hrun as (_ & _ & Hresp).
  destruct (negotiated_is_version1 _ _ Ha) as [-> _].
  exists w. rewrite Hresp, Hm. repeat split.
Qed.

End Properties.

(** ** The statements on the small instance *)


Lemma failed_header_check_witness :
  serve (handler OpRecords) Sample.bare Sample.healthy =
  Some ({| StatusCode := StatusNotAcceptable;
           ResponseHeader := {[ contentTypeHeader := [contentTypePlaintext] ]};
           ResponseBody := "client must provide an accept header" |},
        Sample.healthy, []) /\
  exists err,
    checkAndGetMediaTypeHeaderValue (mediaTypeVersion "2") = ("", Some err) /\
    serve (handler OpRecords) Sample.version2 Sample.healthy =
    Some ({| StatusCode := StatusUnsupportedMediaType;
             ResponseHeader := {[ contentTypeHeader := [contentTypePlaintext] ]};
             ResponseBody :=
               "client must provide a valid versioned media type in the accept header: "
               +:+ Error err |},
          Sample.healthy, []).
Proof.
  split.
  - apply (failed_header_check_stops_handler (codec:=Sample.codec)
             OpRecords Sample.bare Sample.healthy false Missing).
    reflexivity.
  - eexists. split; [reflexivity|].
    apply (failed_header_check_stops_handler (codec:=Sample.codec)
             OpRecords Sample.version2 Sample.healthy false (Unsupported _)).
    reflexivity.
Defined.

(** Adjust-endpoints checks the content type first: with a valid content
    type and no accept header the accept header is the one reported, and
    with no header at all the content type is. *)
Example AdjustEndpoints_check_order :
  option_map (fun x => ResponseBody (fst (fst x)))
    (serve AdjustEndpoints (Sample.contentOnly "[]") Sample.healthy) =
  Some "client must provide an accept header" /\
  option_map (fun x => ResponseBody (fst (fst x)))
    (serve AdjustEndpoints Sample.bare Sample.healthy) =
  Some "client must provide a content type".
Proof. split; vm_compute; reflexivity. Qed.


Lemma ApplyChanges_provider_outcome_witness :
  serve ApplyChanges (Sample.posting "{}") Sample.failing =
  Some ({| StatusCode := StatusInternalServerError;
           ResponseHeader := {[ contentTypeHeader := [contentTypePlaintext] ]};
           ResponseBody := "" |},
        Sample.failing, [CallApplyChanges (mkChanges None None None None)]) /\
  serve ApplyChanges (Sample.posting "{}") Sample.healthy =
  Some ({| StatusCode := StatusNoContent; ResponseHeader := ∅; ResponseBody := "" |},
        Sample.healthy, [CallApplyChanges (mkChanges None None None None)]).
Proof.
  split.
  - apply (ApplyChanges_provider_outcome (codec:=Sample.codec)
             (Sample.posting "{}") Sample.failing Sample.failing "1"
             (mkChanges None None None None) (Some Sample.upstreamDown));
      reflexivity.
  - apply (ApplyChanges_provider_outcome (codec:=Sample.codec)
             (Sample.posting "{}") Sample.healthy Sample.healthy "1"
             (mkChanges None None None None) None);
      reflexivity.
Defined.

Lemma decode_failure_witness :
  serve ApplyChanges (Sample.posting "{") Sample.healthy =
  Some ({| StatusCode := StatusBadRequest;
           ResponseHeader := {[ contentTypeHeader := [contentTypePlaintext] ]};
           ResponseBody := "error decoding changes: unexpected end of JSON input" |},
        Sample.healthy, []) /\
  serve AdjustEndpoints (Sample.posting "[{") Sample.healthy =
  Some ({| StatusCode := StatusBadRequest;
           ResponseHeader := {[ contentTypeHeader := [contentTypePlaintext] ]};
           ResponseBody := "failed to decode request body: unexpected end of JSON input" |},
        Sample.healthy, []).
Proof.
  split.
  - apply (proj1 (decode_failure_is_bad_request (codec:=Sample.codec)
                    (Sample.posting "{") Sample.healthy) "1"
                 (errorString "unexpected end of JSON input"));
      reflexivity.
  - apply (proj2 (decode_failure_is_bad_request (codec:=Sample.codec)
                    (Sample.posting "[{") Sample.healthy) "1" "1"
                 (errorString "unexpected end of JSON input"));
      reflexivity.
Defined.

Lemma AdjustEndpoints_error_keeps_body_witness :
  exists response,
    serve AdjustEndpoints (Sample.posting Sample.twoEndpointsJSON) Sample.failing =
    Some (response, Sample.failing, [CallAdjustEndpoints Sample.twoEndpoints]) /\
    StatusCode response = StatusInternalServerError /\
    ResponseBody response = Sample.twoEndpointsJSON.
Proof.
  apply (AdjustEndpoints_error_keeps_body (codec:=Sample.codec)
           (Sample.posting Sample.twoEndpointsJSON) Sample.failing Sample.failing
           "1" "1" Sample.twoEndpoints Sample.twoEndpoints Sample.upstreamDown
           Sample.twoEndpointsJSON);
    reflexivity.
Defined.

Lemma Records_no_records_witness :
  serve Records Sample.accepting Sample.healthy =
  Some ({| StatusCode := StatusOK;
           ResponseHeader :=
             <[ varyHeader := [contentTypeHeader] ]>
               {[ contentTypeHeader := [mediaTypeVersion "1"] ]};
           ResponseBody := "[]" +:+ newline |},
        Sample.healthy, [CallRecords]).
Proof.
  apply (Records_no_records (codec:=Sample.codec)
           Sample.accepting Sample.healthy Sample.healthy "1" (Some []));
    reflexivity.
Defined.

(** C6, as stated, fails: with a valid accept header and a provider that
    returns zero records and no error, the status is 200 and the body is not
    the two bytes of the empty array.  For the empty slice the encoder
    writes the array and a newline; for the nil slice it writes [null] and
    a newline. *)
Lemma Records_no_records_body_counterexample :
  (exists response,
     serve Records Sample.accepting Sample.healthy =
       Some (response, Sample.healthy, [CallRecords]) /\
     Sample.stubRecords Sample.healthy = (Some [], None) /\
     StatusCode response = StatusOK /\
     ResponseBody response = "[]" +:+ newline /\
     ResponseBody response <> "[]") /\
  (exists response,
     serve Records Sample.accepting Sample.nilRecords =
       Some (response, Sample.nilRecords, [CallRecords]) /\
     Sample.stubRecords Sample.nilRecords = (None, None) /\
     slice_len (fst (Sample.stubRecords Sample.nilRecords)) = 0 /\
     StatusCode response = StatusOK /\
     ResponseBody response = "null" +:+ newline /\
     ResponseBody response <> "[]").
Proof.
  split; eexists; (split; [vm_compute; reflexivity|]);
    vm_compute; repeat split; discriminate.
Qed.

Lemma AdjustEndpoints_roundtrip_witness :
  exists response es',
    serve AdjustEndpoints (Sample.posting Sample.twoEndpointsJSON) Sample.healthy =
    Some (response, Sample.healthy, [CallAdjustEndpoints Sample.twoEndpoints]) /\
    StatusCode response = StatusOK /\
    decodeEndpoints (ResponseBody response) = inl es' /\
    es' = Sample.twoEndpoints /\ slice_len es' = slice_len Sample.twoEndpoints.
Proof.
  apply (AdjustEndpoints_roundtrip (codec:=Sample.codec)
           (Sample.posting Sample.twoEndpointsJSON) Sample.healthy Sample.healthy
           "1" "1" Sample.twoEndpoints Sample.twoEndpointsJSON);
    reflexivity.
Defined.

Lemma Negotiate_serializes_domain_filter_witness :
  exists response,
    serve Negotiate Sample.accepting Sample.healthy =
      Some (response, Sample.healthy, [CallGetDomainFilter]) /\
    StatusCode response = StatusOK /\
    ResponseBody response =
      "{" +:+ Sample.quoted "include" +:+ ":[" +:+ Sample.quoted "example.org" +:+ "]}" /\
    ResponseHeader response = {[ contentTypeHeader := [mediaTypeVersion "1"] ]} /\
    ResponseHeader response !! varyHeader = None.
Proof.
  apply (Negotiate_serializes_domain_filter (codec:=Sample.codec)
           Sample.accepting Sample.healthy Sample.healthy "1"
           (Sample.Filters ["example.org"]));
    reflexivity.
Defined.



Lemma AdjustEndpoints_error_headers_witness :
  exists w,
    AdjustEndpoints (Sample.posting Sample.twoEndpointsJSON) (newWorld Sample.failing) =
      Return tt w /\
    handlerHeader (resp w) !! contentTypeHeader = Some [mediaTypeVersion "1"] /\
    handlerHeader (resp w) !! varyHeader = Some [contentTypeHeader] /\
    finishRequest (resp w) =
      {| StatusCode := StatusInternalServerError;
         ResponseHeader := {[ contentTypeHeader := [contentTypePlaintext] ]};
         ResponseBody := Sample.twoEndpointsJSON |} /\
    ResponseHeader (finishRequest (resp w)) !! contentTypeHeader = Some [contentTypePlaintext] /\
    ResponseHeader (finishRequest (resp w)) !! varyHeader = None.
Proof.
  apply (AdjustEndpoints_error_headers_committed (codec:=Sample.codec)
           (Sample.posting Sample.twoEndpointsJSON) Sample.failing Sample.failing
           "1" "1" Sample.twoEndpoints Sample.twoEndpoints Sample.upstreamDown
           Sample.twoEndpointsJSON);
    reflexivity.
Defined.

(** * Further properties *)

(** ** The negotiator when several versions are configured *)

Lemma supportedMediaTypesOf_configured (i : Z) (versions : list string) (acc : string) :
  supportedMediaTypesOf supportedMediaVersions i versions acc =
  supportedMediaTypes i versions acc.
Proof.
  revert i acc. induction versions as [|v rest IH]; intros i acc; [reflexivity|].
  cbn [supportedMediaTypesOf supportedMediaTypes]. apply IH.
Qed.

(** The parameterised negotiator at the configured constant is the
    negotiator of the source. *)
Lemma checkAndGetOf_configured (value : string) :
  checkAndGetMediaTypeHeaderValueOf supportedMediaVersions value =
  checkAndGetMediaTypeHeaderValue value.
Proof.
  unfold checkAndGetMediaTypeHeaderValueOf, checkAndGetMediaTypeHeaderValue.
  now rewrite supportedMediaTypesOf_configured.
Qed.

(** X11. Whatever list of versions is configured, a header value is accepted
    exactly when it is the media type of one of the configured versions,
    and the version returned is that one; every other value gets an error
    and the empty version. *)
Theorem checkAndGetOf_accepts_members (config value : string) :
  (forall v, checkAndGetMediaTypeHeaderValueOf config value = (v, None) <->
             In v (Split config comma) /\ value = mediaTypeVersion v) /\
  ((forall v, In v (Split config comma) -> value <> mediaTypeVersion v) ->
   exists err, checkAndGetMediaTypeHeaderValueOf config value = ("", Some err)).
Proof.
  unfold checkAndGetMediaTypeHeaderValueOf. split.
  - intros v. split.
    + destruct (firstSupported (Split config comma) value) as [v'|] eqn:E; [|discriminate].
      intros [= <-]. now apply firstSupported_Some.
    + intros [Hin ->]. now rewrite (firstSupported_hit _ _ Hin).
  - intros Hno. rewrite (firstSupported_None _ _ Hno). eexists. reflexivity.
Qed.

Lemma append_nil_r (s : string) : s +:+ "" = s.
Proof.
  induction s as [|c s IH]; [reflexivity|].
  change (String c s +:+ "") with (String c (s +:+ "")). now rewrite IH.
Qed.

Lemma append_assoc (a b c : string) : (a +:+ b) +:+ c = a +:+ (b +:+ c).
Proof.
  induction a as [|x a IH]; [reflexivity|].
  change ((String x a +:+ b) +:+ c) with (String x ((a +:+ b) +:+ c)).
  change (String x a +:+ (b +:+ c)) with (String x (a +:+ (b +:+ c))).
  now rewrite IH.
Qed.

(** Each entry followed by the separator, the last one too. *)
Lemma concat_separated (versions : list string) :
  String.concat "" (map (fun v => mediaTypeVersion v +:+ ", ") versions) =
  fold_right (fun v s => mediaTypeVersion v +:+ ", " +:+ s) "" versions.
Proof.
  induction versions as [|v rest IH]; [reflexivity|].
  cbn [map fold_right]. rewrite <- IH.
  destruct rest as [|v' rest']; cbn [map String.concat].
  - reflexivity.
  - rewrite (append_assoc (mediaTypeVersion v) ", "). reflexivity.
Qed.

Lemma supportedMediaTypesOf_all_separated (config : string) (versions : list string)
      (i : Z) (acc : string) :
  i + Z.of_nat (length versions) < len config ->
  supportedMediaTypesOf config i versions acc =
  acc +:+ fold_right (fun v s => mediaTypeVersion v +:+ ", " +:+ s) "" versions.
Proof.
  revert i acc. induction versions as [|v rest IH]; intros i acc Hlen.
  - cbn [supportedMediaTypesOf fold_right]. now rewrite append_nil_r.
  - cbn [supportedMediaTypesOf fold_right]. cbn [length] in Hlen.
    replace (i <? len config - 1) with true by (symmetry; apply Z.ltb_lt; lia).
    rewrite IH by lia. now rewrite !append_assoc.
Qed.

(** X12. When the configuration string is longer than the number of
    versions it lists (as it is as soon as two non-empty versions are
    configured), the separator test, which compares the index with the
    length of the string, holds for every index: in the error for a value
    that is not supported each media type of the list is followed by a
    comma and a space, the last one too. *)
Theorem checkAndGetOf_trailing_separator (config value : string) :
  Z.of_nat (length (Split config comma)) < len config ->
  (forall v, In v (Split config comma) -> value <> mediaTypeVersion v) ->
  checkAndGetMediaTypeHeaderValueOf config value =
  ("", Some (errorString
     ("unsupported media type version: '" +:+ value +:+
      "'. Supported media types are: '" +:+
      String.concat "" (map (fun v => mediaTypeVersion v +:+ ", ") (Split config comma))
      +:+ "'"))).
Proof.
  intros Hlen Hno. unfold checkAndGetMediaTypeHeaderValueOf.
  rewrite (firstSupported_None _ _ Hno).
  rewrite supportedMediaTypesOf_all_separated by lia.
  now rewrite concat_separated.
Qed.

Lemma checkAndGetOf_trailing_separator_witness :
  checkAndGetMediaTypeHeaderValueOf "1,2" "text/html" =
  ("", Some (errorString
     ("unsupported media type version: 'text/html'. Supported media types are: '" +:+
      "application/external.dns.webhook+json;version=1, " +:+
      "application/external.dns.webhook+json;version=2, " +:+ "'"))).
Proof.
  apply (checkAndGetOf_trailing_separator "1,2" "text/html").
  - vm_compute. reflexivity.
  - intros v [<-|[<-|[]]]; discriminate.
Defined.

(** ** The handlers on every request *)

Section MoreProperties.
Context {Endpoint DomainFilter P : Type}.
Context {codec : Codec Endpoint DomainFilter} {provider : Provider Endpoint DomainFilter P}.

(** X1. The health bypass: a request to the health path is answered 200
    with no header and no body whatever its headers, and the wrapped
    handler does not run (no provider call); on any other path the
    middleware is the wrapped handler. *)
Theorem Health_bypass (next : Request -> M (Endpoint:=Endpoint) (P:=P) unit)
        (r : Request) (p : P) :
  (Path r = healthPath ->
   serve (Health next) r p =
   Some ({| StatusCode := StatusOK; ResponseHeader := ∅; ResponseBody := "" |}, p, [])) /\
  (Path r <> healthPath -> forall w, Health next r w = next r w).
Proof.
  split.
  - intros Hp. unfold serve, Health. rewrite Hp. reflexivity.
  - intros Hne w. unfold Health. destruct (String.eqb_spec (Path r) healthPath); [contradiction|reflexivity].
Qed.

Lemma headerCheck_not_nil_on_failure (isContentType : bool) (r : Request)
      (w w' : World Endpoint P) :
  headerFailure (headerOf isContentType r) <> None ->
  headerCheck isContentType r w <> Return None w'.
Proof.
  unfold headerFailure, headerCheck. fold (headerOf isContentType r).
  destruct (len (headerOf isContentType r) =? 0).
  - intros _.
    unfold mbind, M_bind, w_Header_Set, w_WriteHeader, Fprint, w_Write, onWriter, Fatalf, mret, M_ret.
    cbn [resp prov calls logs].
    destruct (rw_Write _ _) as [[n [e|]] rw']; discriminate.
  - destruct (checkAndGetMediaTypeHeaderValue (headerOf isContentType r)) as [v [err|]];
      [|congruence].
    intros _.
    unfold mbind, M_bind, w_Header_Set, w_WriteHeader, Fprint, w_Write, onWriter, Fatalf, mret, M_ret.
    cbn [resp prov calls logs].
    destruct (rw_Write _ _) as [[n [e|]] rw']; discriminate.
Qed.

(** X2. On any response writer, [headerCheck] returns no error exactly when
    the header is the media type of version 1, byte for byte, and then it
    has written nothing: the writer, the provider and the log are as
    before. *)
Theorem headerCheck_nil_iff (isContentType : bool) (r : Request) (w : World Endpoint P) :
  (headerOf isContentType r = mediaTypeVersion1 <->
   exists w', headerCheck isContentType r w = Return None w') /\
  (forall w', headerCheck isContentType r w = Return None w' -> w' = w).
Proof.
  assert (Hpass : headerOf isContentType r = mediaTypeVersion1 ->
                  headerCheck isContentType r w = Return None w).
  { intros Hh. apply (headerCheck_ok _ _ "1"). rewrite Hh. reflexivity. }
  assert (Hinv : forall w', headerCheck isContentType r w = Return None w' ->
                            headerOf isContentType r = mediaTypeVersion1).
  { intros w' Hrun.
    destruct (headerFailure (headerOf isContentType r)) as [f|] eqn:E.
    - exfalso. apply (headerCheck_not_nil_on_failure isContentType r w w'); [|exact Hrun].
      rewrite E. discriminate.
    - unfold headerFailure in E.
      destruct (len (headerOf isContentType r) =? 0); [discriminate|].
      destruct (checkAndGetMediaTypeHeaderValue (headerOf isContentType r))
        as [v [err|]] eqn:E1; [discriminate|].
      now destruct (negotiated_is_version1 _ _ E1). }
  split.
  - split; [intros Hh; exists w; auto | intros [w' Hrun]; eauto].
  - intros w' Hrun. rewrite (Hpass (Hinv w' Hrun)) in Hrun. now injection Hrun.
Qed.

(** *** Helper lemmas on the header checks *)

Lemma headerFailure_None_inv (value : string) :
  headerFailure value = None ->
  exists v, checkAndGetMediaTypeHeaderValue value = (v, None).
Proof.
  unfold headerFailure. destruct (len value =? 0); [discriminate|].
  destruct (checkAndGetMediaTypeHeaderValue value) as [v [err|]]; [discriminate|].
  intros _. now exists v.
Qed.

Lemma firstFailure_None_inv (checks : list bool) (r : Request) :
  firstFailure checks r = None ->
  forall b, In b checks -> exists v, checkAndGetMediaTypeHeaderValue (headerOf b r) = (v, None).
Proof.
  induction checks as [|c rest IH]; cbn [firstFailure In]; [tauto|].
  destruct (headerFailure (headerOf c r)) as [f|] eqn:E; [discriminate|].
  intros Hrest b [<-|Hin]; [now apply headerFailure_None_inv | now apply IH].
Qed.

Lemma firstFailure_Some_inv (checks : list bool) (r : Request) (b : bool) (f : HeaderFailure) :
  firstFailure checks r = Some (b, f) -> headerFailure (headerOf b r) = Some f.
Proof.
  induction checks as [|c rest IH]; cbn [firstFailure]; [discriminate|].
  destruct (headerFailure (headerOf c r)) as [f'|] eqn:E; [|exact IH].
  now intros [= <- <-].
Qed.

Lemma serve_first_failure (op : Operation) (r : Request) (p : P)
      (isContentType : bool) (f : HeaderFailure) :
  firstFailure (requiredHeaders op) r = Some (isContentType, f) ->
  serve (handler op) r p =
  Some ({| StatusCode := failureStatus f; ResponseHeader := plaintextHeader;
           ResponseBody := failureMessage isContentType f |}, p, []).
Proof.
  destruct op; cbn [requiredHeaders firstFailure handler].
  - destruct (headerFailure (headerOf false r)) as [f'|] eqn:E; [|discriminate].
    intros [= <- <-]. destruct (headerCheck_failure (Endpoint:=Endpoint) _ _ p _ E) as [e He].
    unfold serve, Records, acceptHeaderCheck, mbind, M_bind. now rewrite He.
  - destruct (headerFailure (headerOf true r)) as [f'|] eqn:E; [|discriminate].
    intros [= <- <-]. destruct (headerCheck_failure (Endpoint:=Endpoint) _ _ p _ E) as [e He].
    unfold serve, ApplyChanges, contentTypeHeaderCheck, mbind, M_bind. now rewrite He.
  - destruct (headerFailure (headerOf true r)) as [f'|] eqn:E.
    + intros [= <- <-]. destruct (headerCheck_failure (Endpoint:=Endpoint) _ _ p _ E) as [e He].
      unfold serve, AdjustEndpoints, contentTypeHeaderCheck, mbind, M_bind. now rewrite He.
    + destruct (headerFailure (headerOf false r)) as [f'|] eqn:E'; [|discriminate].
      intros [= <- <-]. destruct (headerCheck_failure (Endpoint:=Endpoint) _ _ p _ E') as [e He].
      unfold serve, AdjustEndpoints, contentTypeHeaderCheck, acceptHeaderCheck, mbind, M_bind.
      rewrite (headerCheck_pass _ _ _ E). now rewrite He.
  - destruct (headerFailure (headerOf false r)) as [f'|] eqn:E; [|discriminate].
    intros [= <- <-]. destruct (headerCheck_failure (Endpoint:=Endpoint) _ _ p _ E) as [e He].
    unfold serve, Negotiate, acceptHeaderCheck, mbind, M_bind. now rewrite He.
Qed.

Lemma Records_provider_error (r : Request) (p p' : P) (v : string)
      (records : slice (option Endpoint)) (err : error) :
  checkAndGetMediaTypeHeaderValue (headerOf false r) = (v, None) ->
  Provider_Records p = ((records, Some err), p') ->
  serve Records r p =
  Some ({| StatusCode := StatusInternalServerError; ResponseHeader := ∅;
           ResponseBody := "" |}, p', [CallRecords]).
Proof.
  intros Hh Hp.
  unfold serve, Records, acceptHeaderCheck, mbind, M_bind.
  rewrite (headerCheck_ok _ _ _ _ Hh).
  unfold logAt, onProvider, newWorld. cbn [prov resp calls logs]. rewrite Hp.
  reflexivity.
Qed.

(** *** More on single paths *)

(** X3. When [Records] of the provider fails, list-records answers 500 with
    no header and no body, whatever records came with the error. *)
Theorem Records_provider_failure (r : Request) (p p' : P) (v : string)
      (records : slice (option Endpoint)) (err : error) :
  checkAndGetMediaTypeHeaderValue (headerOf false r) = (v, None) ->
  Provider_Records p = ((records, Some err), p') ->
  serve Records r p =
  Some ({| StatusCode := StatusInternalServerError; ResponseHeader := ∅;
           ResponseBody := "" |}, p', [CallRecords]).
Proof. exact (Records_provider_error r p p' v records err). Qed.

(** X4. When [Records] of the provider succeeds and its records marshal to
    [out], list-records answers 200 with the versioned media type, the
    variance header, and the body [out] followed by one newline. *)
Theorem Records_success (r : Request) (p p' : P) (v : string)
      (records : slice (option Endpoint)) (out : string) :
  checkAndGetMediaTypeHeaderValue (headerOf false r) = (v, None) ->
  Provider_Records p = ((records, None), p') ->
  json_Marshal_Endpoints records = (out, None) ->
  serve Records r p =
  Some ({| StatusCode := StatusOK;
           ResponseHeader :=
             <[ varyHeader := [contentTypeHeader] ]>
               {[ contentTypeHeader := [mediaTypeVersion v] ]};
           ResponseBody := out +:+ newline |}, p', [CallRecords]).
Proof.
  intros Hh Hp Hm. now rewrite (Records_run r p p' v records Hh Hp), Hm.
Qed.

(** X5. When [AdjustEndpoints] of the provider succeeds with the endpoints
    [pve'], whatever they are, and they marshal to [out], adjust-endpoints
    answers 200 with the versioned media type, the variance header and the
    body [out], with no newline after it; the provider was called once, with
    the decoded request body. *)
Theorem AdjustEndpoints_success (r : Request) (p p' : P) (v v' : string)
      (pve pve' : slice (option Endpoint)) (out : string) :
  checkAndGetMediaTypeHeaderValue (headerOf true r) = (v, None) ->
  checkAndGetMediaTypeHeaderValue (headerOf false r) = (v', None) ->
  decodeEndpoints (Body r) = inl pve ->
  Provider_AdjustEndpoints pve p = ((pve', None), p') ->
  json_Marshal_Endpoints pve' = (out, None) ->
  serve AdjustEndpoints r p =
  Some ({| StatusCode := StatusOK;
           ResponseHeader :=
             <[ varyHeader := [contentTypeHeader] ]>
               {[ contentTypeHeader := [mediaTypeVersion v'] ]};
           ResponseBody := out |}, p', [CallAdjustEndpoints pve]).
Proof.
  intros Hc Ha Hd Hp Hm.
  now rewrite (AdjustEndpoints_serve r p p' v v' pve pve' _ Hc Ha Hd Hp), Hm.
Qed.

(** *** Every run of a handler *)

Lemma failureMessage_nonempty (b : bool) (f : HeaderFailure) : failureMessage b f <> "".
Proof. destruct f, b; discriminate. Qed.

(** Every run of a handler on a fresh response writer returns, in one of
    two ways: the request was rejected before the provider was called, or
    the provider was called once. *)
Lemma serve_classified (op : Operation) (r : Request) (p : P) :
  exists response p' cs,
    serve (handler op) r p = Some (response, p', cs) /\
    ((cs = [] /\ p' = p /\
      (StatusCode response = StatusBadRequest \/
       StatusCode response = StatusNotAcceptable \/
       StatusCode response = StatusUnsupportedMediaType) /\
      ResponseHeader response = plaintextHeader /\
      ResponseBody response <> "") \/
     ((exists c, cs = [c]) /\
      (StatusCode response = StatusOK \/
       StatusCode response = StatusNoContent \/
       StatusCode response = StatusInternalServerError) /\
      (ResponseBody response <> "" ->
       ResponseHeader response !! contentTypeHeader = Some [contentTypePlaintext] \/
       ResponseHeader response !! contentTypeHeader = Some [mediaTypeVersion1]))).
Proof.
  destruct (firstFailure (requiredHeaders op) r) as [[b f]|] eqn:E.
  { rewrite (serve_first_failure op r p b f E). eexists _, _, _. split; [reflexivity|].
    left. cbn [StatusCode ResponseHeader ResponseBody].
    repeat split; [destruct f; auto | apply failureMessage_nonempty]. }
  pose proof (firstFailure_None_inv _ _ E) as Hok.
  destruct op; cbn [requiredHeaders In handler] in *.
  - destruct (Hok false) as [v Hv]; [auto|].
    destruct (negotiated_is_version1 _ _ Hv) as [-> _].
    destruct (Provider_Records p) as [[records [e|]] p'] eqn:Hp.
    + rewrite (Records_provider_error r p p' _ records e Hv Hp).
      eexists _, _, _. split; [reflexivity|]. right.
      cbn [StatusCode ResponseHeader ResponseBody].
      split; [eauto|]. split; [auto|]. congruence.
    + rewrite (Records_run r p p' _ records Hv Hp).
      destruct (json_Marshal_Endpoints records) as [out [e|]];
        eexists _, _, _; (split; [reflexivity|]); right;
        cbn [StatusCode ResponseHeader ResponseBody];
        (split; [eauto|]); (split; [auto|]); intros _; right; vm_compute; reflexivity.
  - destruct (Hok true) as [v Hv]; [auto|].
    destruct (decodeChanges (Body r)) as [changes|err] eqn:Hd.
    + destruct (Provider_ApplyChanges changes p) as [res p'] eqn:Hp.
      rewrite (ApplyChanges_run r p p' v changes res Hv Hd Hp).
      eexists _, _, _. split; [reflexivity|]. right.
      destruct res; cbn [StatusCode ResponseHeader ResponseBody];
        (split; [eauto|]); (split; [auto|]); congruence.
    + rewrite (ApplyChanges_decode_error r p v err Hv Hd).
      eexists _, _, _. split; [reflexivity|]. left.
      cbn [StatusCode ResponseHeader ResponseBody]. repeat split; [auto | discriminate].
  - destruct (Hok true) as [v Hv]; [auto|]. destruct (Hok false) as [v' Hv']; [auto|].
    destruct (negotiated_is_version1 _ _ Hv') as [-> _].
    destruct (decodeEndpoints (Body r)) as [pve|err] eqn:Hd.
    + destruct (Provider_AdjustEndpoints pve p) as [[pve' res] p'] eqn:Hp.
      rewrite (AdjustEndpoints_serve r p p' v _ pve pve' res Hv Hv' Hd Hp).
      eexists _, _, _. split; [reflexivity|]. right.
      destruct res; cbn [StatusCode ResponseHeader ResponseBody];
        (split; [eauto|]); (split; [auto|]); intros _;
        [left | right]; vm_compute; reflexivity.
    + rewrite (AdjustEndpoints_decode_error r p v _ err Hv Hv' Hd).
      eexists _, _, _. split; [reflexivity|]. left.
      cbn [StatusCode ResponseHeader ResponseBody]. repeat split; [auto | discriminate].
  - destruct (Hok false) as [v Hv]; [auto|].
    destruct (negotiated_is_version1 _ _ Hv) as [-> _].
    destruct (Provider_GetDomainFilter p) as [f p'] eqn:Hp.
    rewrite (Negotiate_run r p p' _ f Hv Hp).
    destruct (marshalDomainFilter f) as [b|e];
      eexists _, _, _; (split; [reflexivity|]); right;
      cbn [StatusCode ResponseHeader ResponseBody];
      (split; [eauto|]); (split; [auto|]).
    + intros _. right. vm_compute. reflexivity.
    + congruence.
Qed.


(** X7. The status is 4xx exactly when the provider was not called, and
    then the provider is unchanged, the response has [Content-Type:
    text/plain] as only header and a body that is not empty. *)
Theorem client_error_iff_provider_untouched (op : Operation) (r : Request) (p p' : P)
        (response : Response) (cs : list (Call Endpoint)) :
  serve (handler op) r p = Some (response, p', cs) ->
  (400 <= StatusCode response < 500 <-> cs = []) /\
  (cs = [] ->
   p' = p /\
   ResponseHeader response = {[ contentTypeHeader := [contentTypePlaintext] ]} /\
   ResponseBody response <> "").
Proof.
  intros Hs. destruct (serve_classified op r p) as (response' & p'' & cs' & Hs' & Hc).
  rewrite Hs in Hs'. injection Hs' as E1 E2 E3. subst response' p'' cs'.
  destruct Hc as [(-> & -> & Hst & Hh & Hb)|([c ->] & Hst & _)].
  - split; [|auto]. split; [reflexivity|]. intros _.
    destruct Hst as [-> | [-> | ->]];
      unfold StatusBadRequest, StatusNotAcceptable, StatusUnsupportedMediaType; lia.
  - split; [|discriminate]. split; [|discriminate]. intros Hr. exfalso.
    destruct Hst as [Hst|[Hst|Hst]]; rewrite Hst in Hr;
      unfold StatusOK, StatusNoContent, StatusInternalServerError in Hr; lia.
Qed.

(** X8. The status of every response is one of 200, 204, 400, 406, 415 and
    500, and a response with a body has a [Content-Type]: text/plain or
    the media type of version 1. *)
Theorem response_status_and_content_type (op : Operation) (r : Request) (p p' : P)
        (response : Response) (cs : list (Call Endpoint)) :
  serve (handler op) r p = Some (response, p', cs) ->
  In (StatusCode response) [200; 204; 400; 406; 415; 500] /\
  (ResponseBody response <> "" ->
   ResponseHeader response !! contentTypeHeader = Some [contentTypePlaintext] \/
   ResponseHeader response !! contentTypeHeader = Some [mediaTypeVersion1]).
Proof.
  intros Hs. destruct (serve_classified op r p) as (response' & p'' & cs' & Hs' & Hc).
  rewrite Hs in Hs'. injection Hs' as E1 E2 E3. subst response' p'' cs'.
  destruct Hc as [(_ & _ & Hst & Hh & _)|(_ & Hst & Hct)].
  - split.
    + destruct Hst as [-> | [-> | ->]]; cbn; auto 10.
    + intros _. left. rewrite Hh. reflexivity.
  - split; [|exact Hct].
    destruct Hst as [-> | [-> | ->]]; cbn; auto 10.
Qed.

(** *** What the client is told, and what of the request is read *)

Lemma checkAndGet_error_form (value v : string) (err : error) :
  checkAndGetMediaTypeHeaderValue value = (v, Some err) ->
  err = unsupportedMediaTypeError value mediaTypeVersion1.
Proof.
  unfold checkAndGetMediaTypeHeaderValue.
  destruct (firstSupported (Split supportedMediaVersions comma) value); [discriminate|].
  intros [= _ <-]. reflexivity.
Qed.

(** X9. A header that is there and is not the supported media type is
    quoted, unchanged, in the body of the 415 response, between the name of
    the header and the supported media type. *)
Theorem unsupported_value_is_quoted (op : Operation) (r : Request) (p : P)
        (isContentType : bool) (f : HeaderFailure) :
  firstFailure (requiredHeaders op) r = Some (isContentType, f) ->
  headerOf isContentType r <> "" ->
  serve (handler op) r p =
  Some ({| StatusCode := StatusUnsupportedMediaType;
           ResponseHeader := {[ contentTypeHeader := [contentTypePlaintext] ]};
           ResponseBody :=
             "client must provide a valid versioned media type in the " +:+
             (if isContentType then "content type" else "accept header") +:+
             ": unsupported media type version: '" +:+ headerOf isContentType r +:+
             "'. Supported media types are: '" +:+
             "application/external.dns.webhook+json;version=1" +:+ "'" |}, p, []).
Proof.
  intros E Hne. rewrite (serve_first_failure op r p _ f E).
  apply firstFailure_Some_inv in E. unfold headerFailure in E.
  destruct (len (headerOf isContentType r) =? 0) eqn:E0.
  { exfalso. apply Hne. destruct (headerOf isContentType r); [reflexivity|discriminate]. }
  destruct (checkAndGetMediaTypeHeaderValue (headerOf isContentType r)) as [v [err|]] eqn:E1;
    [|discriminate].
  injection E as <-. rewrite (checkAndGet_error_form _ _ _ E1).
  destruct isContentType; reflexivity.
Qed.



End MoreProperties.

(** ** The further statements on the small instance *)

Lemma Records_provider_failure_witness :
  serve Records Sample.accepting Sample.failing =
  Some ({| StatusCode := StatusInternalServerError; ResponseHeader := ∅;
           ResponseBody := "" |}, Sample.failing, [CallRecords]).
Proof.
  apply (Records_provider_failure (codec:=Sample.codec)
           Sample.accepting Sample.failing Sample.failing "1" None Sample.upstreamDown);
    reflexivity.
Defined.

Lemma Records_success_witness :
  serve Records Sample.accepting Sample.populated =
  Some ({| StatusCode := StatusOK;
           ResponseHeader :=
             <[ varyHeader := [contentTypeHeader] ]>
               {[ contentTypeHeader := [mediaTypeVersion "1"] ]};
           ResponseBody := Sample.twoEndpointsJSON +:+ newline |},
        Sample.populated, [CallRecords]).
Proof.
  apply (Records_success (codec:=Sample.codec)
           Sample.accepting Sample.populated Sample.populated "1" Sample.twoEndpoints
           Sample.twoEndpointsJSON);
    reflexivity.
Defined.

Lemma AdjustEndpoints_success_witness :
  serve AdjustEndpoints (Sample.posting "[]") Sample.healthy =
  Some ({| StatusCode := StatusOK;
           ResponseHeader :=
             <[ varyHeader := [contentTypeHeader] ]>
               {[ contentTypeHeader := [mediaTypeVersion "1"] ]};
           ResponseBody := "[]" |},
        Sample.healthy, [CallAdjustEndpoints (Some [])]).
Proof.
  apply (AdjustEndpoints_success (codec:=Sample.codec)
           (Sample.posting "[]") Sample.healthy Sample.healthy "1" "1"
           (Some []) (Some []) "[]");
    reflexivity.
Defined.

Lemma client_error_iff_provider_untouched_witness :
  serve (handler OpNegotiate) Sample.bare Sample.healthy =
    Some (mkResponse StatusNotAcceptable {[ contentTypeHeader := [contentTypePlaintext] ]}
            "client must provide an accept header", Sample.healthy, []) /\
  (400 <= StatusNotAcceptable < 500 <-> @nil (Call Sample.Endpoint) = []).
Proof.
  assert (Hs : serve (handler OpNegotiate) Sample.bare Sample.healthy =
               Some (mkResponse StatusNotAcceptable
                       {[ contentTypeHeader := [contentTypePlaintext] ]}
                       "client must provide an accept header", Sample.healthy, []))
    by (vm_compute; reflexivity).
  split; [exact Hs|].
  exact (proj1 (client_error_iff_provider_untouched (codec:=Sample.codec)
                  OpNegotiate Sample.bare Sample.healthy Sample.healthy _ [] Hs)).
Defined.

Lemma response_status_and_content_type_witness :
  serve (handler OpRecords) Sample.accepting Sample.healthy =
    Some (mkResponse StatusOK (mediaTypeHeader "1" true) ("[]" +:+ newline),
          Sample.healthy, [CallRecords]) /\
  In StatusOK [200; 204; 400; 406; 415; 500].
Proof.
  assert (Hs : serve (handler OpRecords) Sample.accepting Sample.healthy =
               Some (mkResponse StatusOK (mediaTypeHeader "1" true) ("[]" +:+ newline),
                     Sample.healthy, [CallRecords]))
    by (vm_compute; reflexivity).
  split; [exact Hs|].
  exact (proj1 (response_status_and_content_type (codec:=Sample.codec)
                  OpRecords Sample.accepting Sample.healthy Sample.healthy _ _ Hs)).
Defined.

Lemma unsupported_value_is_quoted_witness :
  serve (handler OpRecords) Sample.version2 Sample.healthy =
  Some ({| StatusCode := StatusUnsupportedMediaType;
           ResponseHeader := {[ contentTypeHeader := [contentTypePlaintext] ]};
           ResponseBody :=
             "client must provide a valid versioned media type in the accept header" +:+
             ": unsupported media type version: '" +:+
             "application/external.dns.webhook+json;version=2" +:+
             "'. Supported media types are: '" +:+
             "application/external.dns.webhook+json;version=1" +:+ "'" |},
        Sample.healthy, []).
Proof.
  apply (unsupported_value_is_quoted (codec:=Sample.codec)
           OpRecords Sample.version2 Sample.healthy false
           (Unsupported (unsupportedMediaTypeError (mediaTypeVersion "2") mediaTypeVersion1))).
  - vm_compute. reflexivity.
  - vm_compute. discriminate.
Defined.

